(** * LRO LROC NAC driver ([ale/drivers/lro_drivers.py])

    A shallow embedding of [LroLrocPds3LabelNaifSpiceDriver] and the
    properties of its overridden accessors.

    The driver is a leaf plug-in: every property it does not define is
    supplied by the generic pipeline ([NaifSpice], [Pds3Label],
    [LineScanner], [Driver]) or by an external service (the glob of the
    file system, the SPICE toolkit).  Those collaborators are taken as they
    answer: a record of results, each of which is either a value or a
    raised exception.  Python floats are IEEE 754 binary64 numbers, that is
    Rocq's primitive floats. *)

From Stdlib Require Import ZArith List String Ascii Bool Lia.
From Stdlib Require Import DecimalString Floats Sorted Permutation.
From Stdlib Require DecimalPos DecimalZ.
From stdpp Require Import base option list sorting gmap strings.

Import ListNotations.
Local Open Scope string_scope.

(** ** Python values and exceptions *)

Module Py.

(** The exceptions the collaborators of the driver raise. *)
Inductive exn : Type :=
| KeyError (key : string)
| AttributeError (name : string)
| SpiceError (msg : string)
| OtherError (msg : string).

(** The outcome of evaluating a Python expression. *)
Inductive result (A : Type) : Type :=
| Ok (a : A)
| Raise (e : exn).
Arguments Ok {A} a.
Arguments Raise {A} e.

(** Sequencing: an exception raised by the first computation is the
    outcome of the whole. *)
#[export] Instance result_ret : MRet result := fun A a => Ok a.
#[export] Instance result_bind : MBind result := fun A B k r =>
  match r with
  | Ok a => k a
  | Raise e => Raise e
  end.

(** A [datetime.datetime]; [year] is between [MINYEAR = 1] and
    [MAXYEAR = 9999]. *)
Record datetime : Type := Datetime {
  year : Z;
  month : Z;
  day : Z
}.

(** The values a parsed PVL label holds. *)
#[warnings="-register-all"]
Inductive value : Type :=
| VStr (s : string)
| VInt (n : Z)
| VReal (x : float)
| VDate (d : datetime)
| VSeq (l : list value).

(** [v == s] for a string literal [s]: a value that is not a string is
    not equal to a string. *)
Definition eq_str (v : value) (s : string) : bool :=
  match v with
  | VStr t => String.eqb t s
  | _ => false
  end.

(** [v == s] where [v] may be [None] (as [dict.get] answers for a missing
    key). *)
Definition opt_eq_str (v : option value) (s : string) : bool :=
  match v with
  | Some w => eq_str w s
  | None => false
  end.

(** [str(n)] for an [int]. *)
Definition str_int (n : Z) : string :=
  NilZero.string_of_int (Z.to_int n).

(** [needle in hay] for two strings: [needle] occurs in [hay] as a
    contiguous substring. *)
Fixpoint str_in (needle hay : string) : bool :=
  String.prefix needle hay ||
  match hay with
  | EmptyString => false
  | String _ rest => str_in needle rest
  end.

(** [s.endswith("/")]. *)
Fixpoint ends_with_slash (s : string) : bool :=
  match s with
  | EmptyString => false
  | String c EmptyString => Ascii.eqb c "/"
  | String _ rest => ends_with_slash rest
  end.

(** [s.startswith("/")]. *)
Definition starts_with_slash (s : string) : bool :=
  match s with
  | String c _ => Ascii.eqb c "/"
  | EmptyString => false
  end.

(** [posixpath.join(a, b)]. *)
Definition path_join (a b : string) : string :=
  if starts_with_slash b then b
  else if String.eqb a EmptyString || ends_with_slash a then a ++ b
  else a ++ "/" ++ b.

(** [p[i:]], where [i] is one past the last ["/"] seen so far; [best] is
    that slice for the part of the path already read. *)
Fixpoint after_last_slash (best p : string) : string :=
  match p with
  | EmptyString => best
  | String c rest =>
      after_last_slash (if Ascii.eqb c "/" then rest else best) rest
  end.

(** [posixpath.basename(p)]: [p[p.rfind("/") + 1:]]. *)
Definition basename (p : string) : string := after_last_slash p p.

(** [sorted(l)] for a list of strings: strings are ordered
    lexicographically by code point, which for UTF-8 encoded strings is
    the lexicographic order of their bytes.  The order is total and equal
    strings are identical, so the sorted list does not depend on the
    sorting algorithm. *)
Fixpoint insert_sorted (x : string) (l : list string) : list string :=
  match l with
  | [] => [x]
  | y :: rest =>
      if String.leb x y then x :: l else y :: insert_sorted x rest
  end.

Fixpoint sorted (l : list string) : list string :=
  match l with
  | [] => []
  | x :: rest => insert_sorted x (sorted rest)
  end.

End Py.

Import Py.

(** ** The collaborators *)

(** What the base classes answer for one driver instance.  [label] is the
    parsed PDS3 label; the other fields are the properties the driver reads
    through [self] or [super()] and does not define itself. *)
Record Base : Type := {
  label : gmap string value;
  base_instrument_id : result value;
  base_exposure_duration : result float;
  instrument_host_id : result value;
  utc_start_time : result datetime;
  spacecraft_id : result Z;
  ikid : result Z
}.

(** [self.label.get(key)]. *)
Definition label_get (d : Base) (key : string) : option value :=
  label d !! key.

(** [self.label[key]]. *)
Definition label_item (d : Base) (key : string) : result value :=
  match label d !! key with
  | Some v => Ok v
  | None => Raise (KeyError key)
  end.

(** ** [instrument_id] *)

Definition instrument_id (d : Base) : result (option string) :=
  instrument ← base_instrument_id d;
  let frame_id := label_get d "FRAME_ID" in
  if eq_str instrument "LROC" && opt_eq_str frame_id "LEFT" then
    Ok (Some "LRO_LROCNACL")
  else if eq_str instrument "LROC" && opt_eq_str frame_id "RIGHT" then
    Ok (Some "LRO_LROCNACR")
  else
    Ok None.

(** ** The environment *)

(** What lies outside the driver instance: the configuration, the file
    system as [glob] answers for a pattern (in the order of the directory
    listing, which is arbitrary), and the SPICE toolkit with its kernel
    pool: each numeric kernel variable holds a list of values. *)
Record Env : Type := {
  config_lro : string;
  glob : string -> list string;
  scs2e : Z -> value -> result float;
  kernel_pool : gmap string (list float)
}.

(** [spice.gdpool(name, start, room).tolist()]: at most [room] values of
    the kernel variable [name], from index [start] on; a variable that is
    not in the pool raises. *)
Definition gdpool (env : Env) (name : string) (start room : nat)
  : result (list float) :=
  match kernel_pool env !! name with
  | Some vals => Ok (take room (drop start vals))
  | None => Raise (SpiceError name)
  end.

(** ** [metakernel] *)

(** The attributes the driver sets on itself.  [_metakernel = None] is an
    instance on which the attribute has not been set ([hasattr] is false);
    [Some None] is the attribute set to Python's [None]. *)
Record Attrs : Type := {
  _metakernel : option (option string)
}.

(** A driver instance as its constructor leaves it. *)
Definition new_instance : Attrs := {| _metakernel := None |}.

Definition hasattr_metakernel (self : Attrs) : bool :=
  match _metakernel self with
  | Some _ => true
  | None => false
  end.

Definition set_metakernel (v : option string) (self : Attrs) : Attrs :=
  {| _metakernel := Some v |}.

(** The loop [for mk in mks: if str(self.utc_start_time.year) in
    os.path.basename(mk): self._metakernel = mk].  The start time is read
    in every iteration; an exception leaves the attributes as they are at
    that point. *)
Fixpoint metakernel_scan (d : Base) (mks : list string) (self : Attrs)
  : result unit * Attrs :=
  match mks with
  | [] => (Ok tt, self)
  | mk :: rest =>
      match utc_start_time d with
      | Raise e => (Raise e, self)
      | Ok t =>
          if str_in (str_int (year t)) (basename mk)
          then metakernel_scan d rest (set_metakernel (Some mk) self)
          else metakernel_scan d rest self
      end
  end.

(** The property [metakernel]: the outcome of one access and the
    attributes after it. *)
Definition metakernel (env : Env) (d : Base) (self : Attrs)
  : result (option string) * Attrs :=
  let metakernel_dir := config_lro env in
  let mks := sorted (glob env (path_join metakernel_dir "*.tm")) in
  let '(r, self') :=
    if hasattr_metakernel self then (Ok tt, self)
    else metakernel_scan d mks (set_metakernel None self) in
  match r with
  | Raise e => (Raise e, self')
  | Ok _ =>
      match _metakernel self' with
      | Some v => (Ok v, self')
      | None => (Raise (AttributeError "_metakernel"), self')
      end
  end.

(** Successive accesses to [metakernel] on one instance, each in the world
    (environment and collaborators' answers) of its moment. *)
Fixpoint metakernel_accesses (ws : list (Env * Base)) (self : Attrs)
  : list (result (option string)) * Attrs :=
  match ws with
  | [] => ([], self)
  | (env, d) :: rest =>
      let '(r, self') := metakernel env d self in
      let '(rs, self'') := metakernel_accesses rest self' in
      (r :: rs, self'')
  end.

(** ** The constant and delegating properties *)

Definition spacecraft_name (d : Base) : result value :=
  instrument_host_id d.

Definition sensor_model_version (d : Base) : result Z := Ok 2%Z.

Definition light_time_correction (d : Base) : result string := Ok "NONE".

Set Warnings "-inexact-float".

Definition multipli_line_error (d : Base) : float := 0.0045%float.

Definition additive_line_error (d : Base) : float := 0.0%float.

Definition constant_time_offset (d : Base) : float := 0.0%float.

Definition additional_preroll (d : Base) : float := 1024.0%float.

(** ** [usgscsm_distortion_model] *)

Definition odtk (env : Env) (d : Base) : result (list float) :=
  k ← ikid d;
  gdpool env ("INS" ++ str_int k ++ "_OD_K") 0 1.

Definition usgscsm_distortion_model (env : Env) (d : Base)
  : result (gmap string (gmap string (list float))) :=
  coefficients ← odtk env d;
  Ok {[ "lrolrocnac" := {[ "coefficients" := coefficients ]} ]}.

(** ** [exposure_duration] and [ephemeris_start_time] *)

(** [super().exposure_duration * (1 + self.multipli_line_error) +
    self.additive_line_error]; the [int] [1] is converted to the float
    [1.0] by the addition. *)
Definition exposure_duration (d : Base) : result float :=
  b ← base_exposure_duration d;
  Ok (b * (1 + multipli_line_error d) + additive_line_error d)%float.

Definition ephemeris_start_time (env : Env) (d : Base) : result float :=
  sc ← spacecraft_id d;
  count ← label_item d "LRO:SPACECRAFT_CLOCK_PREROLL_COUNT";
  start_time ← scs2e env sc count;
  let shifted := (start_time + constant_time_offset d)%float in
  let preroll := additional_preroll d in
  e ← exposure_duration d;
  Ok (shifted + preroll * e)%float.

(** ** Notions the properties are stated with *)

(** The order of [sorted]: [a <= b] on strings. *)
Definition str_le (a b : string) : Prop := String.leb a b = true.

(** The test of the loop of [metakernel], for the start year [y]. *)
Definition year_in_basename (y : Z) (mk : string) : bool :=
  str_in (str_int y) (basename mk).

(** The sorted paths of the files [names] of the directory [prefix]. *)
Definition directory_paths (prefix : string) (names : list string)
  : list string :=
  sorted (List.map (String.append prefix) names).

(** ** A sample product *)

Module Sample.

Definition pds3_label : gmap string value :=
  {[ "FRAME_ID" := VStr "LEFT";
     "LRO:SPACECRAFT_CLOCK_PREROLL_COUNT" := VStr "1/270649237:07208" ]}.

Definition base : Base := {|
  label := pds3_label;
  base_instrument_id := Ok (VStr "LROC");
  base_exposure_duration := Ok 0.0003375%float;
  instrument_host_id := Ok (VStr "LRO");
  utc_start_time := Ok (Datetime 2009 7 30);
  spacecraft_id := Ok (-85)%Z;
  ikid := Ok (-85600)%Z
|}.

Definition names : list string :=
  ["lro_2010_v01.tm"; "lro_2009_v02.tm"; "lro_2009_v01.tm"].

Definition env : Env := {|
  config_lro := "/data/lro/mk";
  glob := fun pattern =>
    if String.eqb pattern "/data/lro/mk/*.tm"
    then List.map (String.append "/data/lro/mk/") names
    else [];
  scs2e := fun _ _ => Ok 302228504.36824864%float;
  kernel_pool := {[ "INS-85600_OD_K" := [0.0000181%float] ]}
|}.

(** Later in the life of the instance: another directory, another
    product start time. *)
Definition later_base : Base := {|
  label := pds3_label;
  base_instrument_id := Ok (VStr "LROC");
  base_exposure_duration := Ok 0.0003375%float;
  instrument_host_id := Ok (VStr "LRO");
  utc_start_time := Ok (Datetime 2010 1 2);
  spacecraft_id := Ok (-85)%Z;
  ikid := Ok (-85600)%Z
|}.

Definition later_env : Env := {|
  config_lro := "/data/lro/mk";
  glob := fun _ => ["/data/lro/mk/lro_2010_v07.tm"];
  scs2e := fun _ _ => Ok 302228504.36824864%float;
  kernel_pool := ∅
|}.

(** A label of another instrument, and one with an unknown frame. *)
Definition other_instrument : Base := {|
  label := pds3_label;
  base_instrument_id := Ok (VStr "LOLA");
  base_exposure_duration := Ok 0.0003375%float;
  instrument_host_id := Ok (VStr "LRO");
  utc_start_time := Ok (Datetime 2011 7 30);
  spacecraft_id := Ok (-85)%Z;
  ikid := Ok (-85600)%Z
|}.

Definition unknown_frame : Base := {|
  label := {[ "FRAME_ID" := VStr "CENTER" ]};
  base_instrument_id := Ok (VStr "LROC");
  base_exposure_duration := Ok 0.0003375%float;
  instrument_host_id := Ok (VStr "LRO");
  utc_start_time := Ok (Datetime 2011 7 30);
  spacecraft_id := Ok (-85)%Z;
  ikid := Ok (-85600)%Z
|}.

End Sample.

(** ** Products and environments at the edges *)

Module Edge.

(** A product whose label has neither a start time nor a preroll count. *)
Definition bare_label : Base := {|
  label := {[ "FRAME_ID" := VStr "RIGHT" ]};
  base_instrument_id := Ok (VStr "LROC");
  base_exposure_duration := Ok 0.0003375%float;
  instrument_host_id := Ok (VStr "LRO");
  utc_start_time := Raise (KeyError "START_TIME");
  spacecraft_id := Ok (-85)%Z;
  ikid := Ok (-85601)%Z
|}.

(** A configured directory without metakernels. *)
Definition empty_directory : Env := {|
  config_lro := "/data/lro/mk";
  glob := fun _ => [];
  scs2e := fun _ _ => Ok 302228504.36824864%float;
  kernel_pool := ∅
|}.

(** The directory of [Sample.env], listed in another order. *)
Definition relisted : Env := {|
  config_lro := "/data/lro/mk";
  glob := fun pattern =>
    if String.eqb pattern "/data/lro/mk/*.tm"
    then ["/data/lro/mk/lro_2009_v02.tm"; "/data/lro/mk/lro_2010_v01.tm";
          "/data/lro/mk/lro_2009_v01.tm"]
    else [];
  scs2e := fun _ _ => Ok 302228504.36824864%float;
  kernel_pool := {[ "INS-85600_OD_K" := [0.0000181%float] ]}
|}.

End Edge.

(** * Properties *)

(** ** The embedding at work on the sample product *)

Example sample_instrument_id :
  instrument_id Sample.base = Ok (Some "LRO_LROCNACL").
Proof. reflexivity. Qed.

Example sample_metakernel :
  (metakernel Sample.env Sample.base new_instance).1 =
  Ok (Some "/data/lro/mk/lro_2009_v02.tm").
Proof. reflexivity. Qed.

Example sample_odtk :
  odtk Sample.env Sample.base = Ok [0.0000181%float].
Proof. reflexivity. Qed.

Example sample_exposure_duration :
  exposure_duration Sample.base = Ok (0.0003375 * 1.0045)%float.
Proof. reflexivity. Qed.

Example sample_basename :
  basename "/data/lro/mk/lro_2009_v02.tm" = "lro_2009_v02.tm"
  /\ basename "lro.tm" = "lro.tm" /\ basename "a/b/" = EmptyString.
Proof. repeat split. Qed.

Example sample_path_join :
  path_join "/data/lro/mk" "*.tm" = "/data/lro/mk/*.tm"
  /\ path_join "/data/lro/mk/" "*.tm" = "/data/lro/mk/*.tm"
  /\ path_join EmptyString "*.tm" = "*.tm".
Proof. repeat split. Qed.

Example sample_sorted :
  sorted ["b.tm"; "a_2.tm"; "a_10.tm"; "B.tm"] =
  ["B.tm"; "a_10.tm"; "a_2.tm"; "b.tm"].
Proof. reflexivity. Qed.

(** ** The order of strings *)

Section StringOrder.

Lemma append_nil_l (a : string) : EmptyString ++ a = a.
Proof. reflexivity. Qed.

Lemma append_cons (c : ascii) (a b : string) :
  String c a ++ b = String c (a ++ b).
Proof. reflexivity. Qed.

Lemma append_assoc (a b c : string) : (a ++ b) ++ c = a ++ b ++ c.
Proof.
  induction a as [|x a IH]; [done|]. by rewrite !append_cons, IH.
Qed.

Lemma ascii_compare_refl (c : ascii) : Ascii.compare c c = Eq.
Proof. unfold Ascii.compare. apply N.compare_refl. Qed.

Lemma ascii_compare_eq (c1 c2 : ascii) : Ascii.compare c1 c2 = Eq -> c1 = c2.
Proof.
  unfold Ascii.compare. intros H%N.compare_eq.
  rewrite <- (ascii_N_embedding c1), <- (ascii_N_embedding c2).
  by rewrite H.
Qed.

Lemma ascii_compare_lt_trans (c1 c2 c3 : ascii) :
  Ascii.compare c1 c2 = Lt -> Ascii.compare c2 c3 = Lt ->
  Ascii.compare c1 c3 = Lt.
Proof.
  unfold Ascii.compare. rewrite !N.compare_lt_iff. lia.
Qed.

Lemma str_le_refl (a : string) : str_le a a.
Proof.
  unfold str_le, String.leb.
  induction a as [|c a IH]; simpl; [done|].
  by rewrite ascii_compare_refl.
Qed.

Lemma str_le_trans (a b c : string) : str_le a b -> str_le b c -> str_le a c.
Proof.
  unfold str_le, String.leb.
  revert b c. induction a as [|x a IH]; intros [|y b] [|z c]; simpl; try done.
  destruct (Ascii.compare x y) eqn:Hxy; try done.
  - apply ascii_compare_eq in Hxy as ->.
    destruct (Ascii.compare y z); try done. apply IH.
  - destruct (Ascii.compare y z) eqn:Hyz; try done.
    + apply ascii_compare_eq in Hyz as ->. by rewrite Hxy.
    + by rewrite (ascii_compare_lt_trans _ _ _ Hxy Hyz).
Qed.

Lemma str_le_total (a b : string) : str_le a b \/ str_le b a.
Proof. apply String.leb_total. Qed.

Lemma str_le_antisym (a b : string) : str_le a b -> str_le b a -> a = b.
Proof. apply String.leb_antisym. Qed.

(** A common prefix does not change the order of two strings: the paths
    of one directory are ordered as their file names. *)
Lemma compare_append (p a b : string) :
  String.compare (p ++ a) (p ++ b) = String.compare a b.
Proof.
  induction p as [|c p IH]; [done|].
  rewrite !append_cons. simpl. by rewrite ascii_compare_refl.
Qed.

Lemma leb_append (p a b : string) :
  String.leb (p ++ a) (p ++ b) = String.leb a b.
Proof. unfold String.leb. by rewrite compare_append. Qed.

End StringOrder.

#[local] Instance str_le_Transitive : Transitive str_le.
Proof. intros a b c. apply str_le_trans. Qed.

#[local] Instance str_le_AntiSymm : AntiSymm (=) str_le.
Proof. intros a b. apply str_le_antisym. Qed.

(** ** [sorted] *)

Section Sorting.

Lemma insert_sorted_Permutation (x : string) (l : list string) :
  insert_sorted x l ≡ₚ x :: l.
Proof.
  induction l as [|y l IH]; simpl; [done|].
  destruct (String.leb x y); [done|].
  rewrite IH. apply Permutation_swap.
Qed.

Lemma sorted_Permutation (l : list string) : sorted l ≡ₚ l.
Proof.
  induction l as [|x l IH]; simpl; [done|].
  by rewrite insert_sorted_Permutation, IH.
Qed.

Lemma insert_sorted_StronglySorted (x : string) (l : list string) :
  StronglySorted str_le l -> StronglySorted str_le (insert_sorted x l).
Proof.
  induction l as [|y l IH]; simpl; intros Hl.
  - repeat constructor.
  - apply StronglySorted_cons in Hl as [Hy Hl].
    destruct (String.leb x y) eqn:Hxy.
    + apply StronglySorted_cons. split; [|by apply StronglySorted_cons].
      constructor; [done|].
      eapply Forall_impl; [exact Hy|]. intros z Hz.
      by apply (str_le_trans x y z).
    + apply StronglySorted_cons. split; [|by apply IH].
      rewrite insert_sorted_Permutation. constructor; [|done].
      destruct (str_le_total x y) as [H|H]; [|done].
      unfold str_le in H. congruence.
Qed.

Lemma sorted_StronglySorted (l : list string) :
  StronglySorted str_le (sorted l).
Proof.
  induction l as [|x l IH]; simpl; [constructor|].
  by apply insert_sorted_StronglySorted.
Qed.

(** [sorted l] is the only ordered arrangement of [l]: whichever
    algorithm Python's [sorted] runs, this is its answer. *)
Lemma sorted_unique (l l' : list string) :
  l' ≡ₚ l -> StronglySorted str_le l' -> l' = sorted l.
Proof.
  intros Hp Hs. apply (StronglySorted_unique str_le); [done| |].
  - apply sorted_StronglySorted.
  - by rewrite Hp, sorted_Permutation.
Qed.

(** In an ordered list the last element that passes a test is the
    greatest that passes it. *)
Lemma last_filter_StronglySorted (P : string -> bool) (l : list string)
    (x : string) :
  StronglySorted str_le l ->
  last (List.filter P l) = Some x ->
  x ∈ l /\ P x = true /\ forall y, y ∈ l -> P y = true -> str_le y x.
Proof.
  induction l as [|a l IH]; simpl; intros Hs Hx; [done|].
  apply StronglySorted_cons in Hs as [Ha Hs].
  destruct (last (List.filter P l)) as [x'|] eqn:Hl.
  - assert (x = x') as <-.
    { destruct (P a); [|congruence].
      destruct (List.filter P l); [done|]. simpl in Hx. congruence. }
    destruct (IH Hs eq_refl) as (Hin & HP & Hmax).
    split; [by right|]. split; [done|].
    intros y [->|Hy]%elem_of_cons Hpy; [|by apply Hmax].
    rewrite Forall_forall in Ha. by apply Ha.
  - apply last_None in Hl.
    rewrite Hl in Hx. destruct (P a) eqn:Hpa; [|done].
    simpl in Hx. injection Hx as <-.
    split; [by left|]. split; [done|].
    intros y [->|Hy]%elem_of_cons Hpy; [apply str_le_refl|].
    exfalso. apply list_elem_of_In in Hy.
    assert (In y (List.filter P l)) as Hf by (apply filter_In; done).
    by rewrite Hl in Hf.
Qed.

Lemma last_filter_None (P : string -> bool) (l : list string) :
  last (List.filter P l) = None <-> forall y, y ∈ l -> P y = false.
Proof.
  rewrite last_None. split.
  - intros Hl y Hy%list_elem_of_In. destruct (P y) eqn:Hp; [|done].
    assert (In y (List.filter P l)) as Hf by (apply filter_In; done).
    by rewrite Hl in Hf.
  - intros H. induction l as [|a l IH]; simpl; [done|].
    rewrite (H a) by left. apply IH. intros y Hy. apply H. by right.
Qed.

End Sorting.

(** ** Substrings and paths *)

Section Paths.

Lemma prefix_iff (a h : string) :
  String.prefix a h = true <-> exists v, h = a ++ v.
Proof.
  revert h. induction a as [|c a IH]; intros h.
  - destruct h; split; eauto.
  - destruct h as [|c' h]; simpl.
    + split; [done|]. by intros [v Hv].
    + destruct (ascii_dec c c') as [->|Hne].
      * rewrite IH. split; intros [v Hv]; exists v.
        -- by rewrite append_cons, Hv.
        -- rewrite append_cons in Hv. congruence.
      * split; [done|]. intros [v Hv].
        rewrite append_cons in Hv. congruence.
Qed.

(** [str_in] is the substring test. *)
Lemma str_in_iff (a h : string) :
  str_in a h = true <-> exists u v, h = u ++ a ++ v.
Proof.
  induction h as [|c h IH]; cbn [str_in].
  - rewrite orb_false_r, prefix_iff. split.
    + intros [v Hv]. by exists EmptyString, v.
    + intros (u & v & Hv). destruct u; [by exists v|done].
  - rewrite orb_true_iff, prefix_iff, IH. split.
    + intros [[v Hv]|(u & v & Hv)].
      * by exists EmptyString, v.
      * exists (String c u), v. by rewrite append_cons, Hv.
    + intros (u & v & Hv). destruct u as [|c' u].
      * left. by exists v.
      * right. exists u, v. rewrite append_cons in Hv. congruence.
Qed.

Lemma str_in_slash_cons (c : ascii) (n : string) :
  str_in "/" (String c n) = false ->
  Ascii.eqb c "/" = false /\ str_in "/" n = false.
Proof.
  simpl. intros [H1 H2]%orb_false_elim. split; [|done].
  destruct (ascii_dec "/" c) as [<-|Hne].
  - by destruct n.
  - apply Ascii.eqb_neq. congruence.
Qed.

Lemma after_last_slash_no_slash (best n : string) :
  str_in "/" n = false -> after_last_slash best n = best.
Proof.
  revert best. induction n as [|c n IH]; intros best Hn; [done|].
  apply str_in_slash_cons in Hn as [Hc Hn].
  cbn [after_last_slash]. rewrite Hc. by apply IH.
Qed.

Lemma after_last_slash_append (best a n : string) :
  after_last_slash best (a ++ String "/" n) = after_last_slash n n.
Proof.
  revert best. induction a as [|c a IH]; intros best; [done|].
  rewrite append_cons. cbn [after_last_slash]. apply IH.
Qed.

Lemma ends_with_slash_inv (p : string) :
  ends_with_slash p = true -> exists a, p = a ++ "/".
Proof.
  induction p as [|c p IH]; [done|].
  destruct p as [|c' p].
  - simpl. intros ->%Ascii.eqb_eq. by exists EmptyString.
  - intros H. destruct (IH H) as [a Ha]. exists (String c a).
    by rewrite append_cons, <- Ha.
Qed.

(** The base name of a file of a directory is its file name. *)
Lemma basename_append (prefix n : string) :
  prefix = EmptyString \/ ends_with_slash prefix = true ->
  str_in "/" n = false ->
  basename (prefix ++ n) = n.
Proof.
  unfold basename. intros [->|[a ->]%ends_with_slash_inv] Hn.
  - by apply after_last_slash_no_slash.
  - rewrite append_assoc, append_cons, append_nil_l.
    rewrite after_last_slash_append.
    by apply after_last_slash_no_slash.
Qed.

End Paths.

(** ** [metakernel]: one access *)

Section Metakernel.

Lemma metakernel_scan_Ok (d : Base) (t : datetime) (mks : list string)
    (self : Attrs) :
  utc_start_time d = Ok t ->
  metakernel_scan d mks self =
    (Ok tt,
     match last (List.filter (year_in_basename (year t)) mks) with
     | Some mk => set_metakernel (Some mk) self
     | None => self
     end).
Proof.
  intros Ht. revert self.
  induction mks as [|mk mks IH]; intros self; [done|].
  cbn [metakernel_scan List.filter]. rewrite Ht.
  change (str_in (str_int (year t)) (basename mk))
    with (year_in_basename (year t) mk).
  destruct (year_in_basename (year t) mk); rewrite IH; [|done].
  destruct (List.filter _ mks) as [|a l]; [done|].
  change (last (mk :: a :: l)) with (last (a :: l)).
  destruct (last (a :: l)) eqn:Hlast; [done|].
  by apply last_None in Hlast.
Qed.

(** The first access on a new instance, when the start time is there. *)
Lemma metakernel_new_instance (env : Env) (d : Base) (t : datetime) :
  utc_start_time d = Ok t ->
  let found :=
    last (List.filter (year_in_basename (year t))
            (sorted (glob env (path_join (config_lro env) "*.tm")))) in
  metakernel env d new_instance = (Ok found, {| _metakernel := Some found |}).
Proof.
  intros Ht found. unfold metakernel. simpl.
  rewrite (metakernel_scan_Ok d t) by done.
  fold found. by destruct found.
Qed.

(** Whatever the outcome of an access, a value it returns is the value
    of the attribute afterwards. *)
Lemma metakernel_Ok_cached (env : Env) (d : Base) (self self' : Attrs)
    (v : option string) :
  metakernel env d self = (Ok v, self') -> _metakernel self' = Some v.
Proof.
  unfold metakernel.
  destruct (if hasattr_metakernel self then _ else _) as [r s] eqn:Hr.
  destruct r as [[]|e]; [|done].
  destruct (_metakernel s) eqn:Hs; [|done].
  intros [= <- <-]. done.
Qed.

(** An access on an instance that has the attribute returns it and
    changes nothing, in any world. *)
Lemma metakernel_cached (env : Env) (d : Base) (self : Attrs)
    (v : option string) :
  _metakernel self = Some v -> metakernel env d self = (Ok v, self).
Proof.
  intros Hv. unfold metakernel, hasattr_metakernel. rewrite Hv.
  cbn. by rewrite Hv.
Qed.

Lemma metakernel_accesses_cached (ws : list (Env * Base)) (self : Attrs)
    (v : option string) :
  _metakernel self = Some v ->
  metakernel_accesses ws self = (List.map (fun _ => Ok v) ws, self).
Proof.
  intros Hv. induction ws as [|[env d] ws IH]; simpl; [done|].
  by rewrite (metakernel_cached env d self v), IH.
Qed.

End Metakernel.

(** ** Floating-point facts *)

Section FloatFacts.

Local Open Scope float_scope.

(** Adding the float [0.0] changes nothing, but for the negative zero,
    which becomes the positive zero (round to nearest). *)
Lemma float_add_zero_r (x : float) :
  x + 0.0 = x \/ (x = -0.0 /\ x + 0.0 = 0.0).
Proof.
  assert (Prim2SF 0.0 = S754_zero false) as H0 by reflexivity.
  destruct (Prim2SF x) as [[|]| | |s m e] eqn:Hx.
  - right. assert (x = -0.0) as ->.
    { apply Prim2SF_inj. by rewrite Hx. }
    done.
  - left. apply Prim2SF_inj. by rewrite add_spec, Hx, H0.
  - left. apply Prim2SF_inj. by rewrite add_spec, Hx, H0.
  - left. apply Prim2SF_inj. by rewrite add_spec, Hx, H0.
  - left. apply Prim2SF_inj. by rewrite add_spec, Hx, H0.
Qed.

(** The sum [1 + 0.0045], rounded to binary64, is the float [1.0045]. *)
Lemma one_plus_multipli_line_error : 1 + 0.0045 = 1.0045.
Proof. reflexivity. Qed.

End FloatFacts.

(** ** [instrument_id] *)

Section InstrumentId.

Lemma eq_str_true (v : value) (s : string) :
  eq_str v s = true <-> v = VStr s.
Proof.
  destruct v; simpl; try (split; [done|congruence]).
  rewrite String.eqb_eq. split; congruence.
Qed.

Lemma opt_eq_str_true (v : option value) (s : string) :
  opt_eq_str v s = true <-> v = Some (VStr s).
Proof.
  destruct v as [w|]; simpl; [|done].
  rewrite eq_str_true. split; congruence.
Qed.

Lemma opt_eq_str_false (v : option value) (s : string) :
  v <> Some (VStr s) -> opt_eq_str v s = false.
Proof.
  intros Hv. destruct (opt_eq_str v s) eqn:H; [|done].
  by apply opt_eq_str_true in H.
Qed.

Lemma eq_str_false (v : value) (s : string) :
  v <> VStr s -> eq_str v s = false.
Proof.
  intros Hv. destruct (eq_str v s) eqn:H; [|done].
  by apply eq_str_true in H.
Qed.

End InstrumentId.

(** C1.  On a label whose generic instrument id is ["LROC"], the frame
    discriminator ["LEFT"] gives the identifier ["LRO_LROCNACL"], ["RIGHT"]
    gives ["LRO_LROCNACR"], and any other discriminator (a missing one
    too) gives no identifier. *)
Theorem instrument_id_by_frame (d : Base) :
  base_instrument_id d = Ok (VStr "LROC") ->
  (label_get d "FRAME_ID" = Some (VStr "LEFT") ->
   instrument_id d = Ok (Some "LRO_LROCNACL")) /\
  (label_get d "FRAME_ID" = Some (VStr "RIGHT") ->
   instrument_id d = Ok (Some "LRO_LROCNACR")) /\
  (label_get d "FRAME_ID" <> Some (VStr "LEFT") ->
   label_get d "FRAME_ID" <> Some (VStr "RIGHT") ->
   instrument_id d = Ok None).
Proof.
  intros Hb. unfold instrument_id. rewrite Hb. cbn.
  repeat split.
  - by intros ->.
  - by intros ->.
  - intros Hl Hr. by rewrite !opt_eq_str_false.
Qed.

(** C1, on the sample product. *)
Lemma instrument_id_by_frame_witness :
  (label_get Sample.base "FRAME_ID" = Some (VStr "LEFT") ->
   instrument_id Sample.base = Ok (Some "LRO_LROCNACL")) /\
  (label_get Sample.base "FRAME_ID" = Some (VStr "RIGHT") ->
   instrument_id Sample.base = Ok (Some "LRO_LROCNACR")) /\
  (label_get Sample.base "FRAME_ID" <> Some (VStr "LEFT") ->
   label_get Sample.base "FRAME_ID" <> Some (VStr "RIGHT") ->
   instrument_id Sample.base = Ok None).
Proof. apply (instrument_id_by_frame Sample.base). reflexivity. Defined.

(** C10.  A generic instrument id other than ["LROC"] gives no identifier,
    whatever the frame discriminator is, ["LEFT"] and ["RIGHT"]
    included. *)
Theorem instrument_id_requires_lroc (d : Base) (b : value) :
  base_instrument_id d = Ok b ->
  b <> VStr "LROC" ->
  instrument_id d = Ok None.
Proof.
  intros Hb Hne. unfold instrument_id. rewrite Hb. cbn.
  by rewrite (eq_str_false b "LROC").
Qed.

(** C10, on a label of another instrument whose frame is ["LEFT"]. *)
Lemma instrument_id_requires_lroc_witness :
  label_get Sample.other_instrument "FRAME_ID" = Some (VStr "LEFT") /\
  instrument_id Sample.other_instrument = Ok None.
Proof.
  split; [reflexivity|].
  apply (instrument_id_requires_lroc Sample.other_instrument (VStr "LOLA"));
    [reflexivity|discriminate].
Defined.

(** ** [metakernel]: the selection *)

Section MetakernelSelection.

(** The decimal numeral of a year from 1000 to 9999 has four digits. *)
Lemma str_int_four_digits (y : Z) :
  (1000 <= y <= 9999)%Z -> String.length (str_int y) = 4.
Proof.
  intros Hy.
  assert (forallb
            (fun k => Nat.eqb (String.length (str_int (1000 + Z.of_nat k))) 4)
            (seq 0 (Z.to_nat 9000)) = true) as Hall
    by (vm_compute; reflexivity).
  rewrite forallb_forall in Hall.
  specialize (Hall (Z.to_nat (y - 1000))).
  replace (1000 + Z.of_nat (Z.to_nat (y - 1000)))%Z with y in Hall by lia.
  apply Nat.eqb_eq, Hall, in_seq. lia.
Qed.

Variables (env : Env) (d : Base) (t : datetime).
Variables (prefix : string) (names : list string).

Hypothesis start_time : utc_start_time d = Ok t.
Hypothesis listing :
  glob env (path_join (config_lro env) "*.tm") =
  List.map (String.append prefix) names.
Hypothesis directory : prefix = EmptyString \/ ends_with_slash prefix = true.
Hypothesis file_names : Forall (fun n => str_in "/" n = false) names.

Let paths := directory_paths prefix names.

Lemma elem_of_paths (p : string) :
  p ∈ paths <-> exists n, p = prefix ++ n /\ n ∈ names.
Proof.
  unfold paths, directory_paths.
  rewrite sorted_Permutation, list_elem_of_In, in_map_iff.
  split; intros (n & Hp & Hn); exists n.
  - by rewrite list_elem_of_In.
  - by rewrite <- list_elem_of_In.
Qed.

Lemma year_in_basename_path (n : string) :
  n ∈ names ->
  year_in_basename (year t) (prefix ++ n) = str_in (str_int (year t)) n.
Proof.
  intros Hn. unfold year_in_basename. rewrite basename_append; [done..|].
  rewrite Forall_forall in file_names. by apply file_names.
Qed.

Lemma metakernel_listing :
  metakernel env d new_instance =
  (Ok (last (List.filter (year_in_basename (year t)) paths)),
   {| _metakernel :=
        Some (last (List.filter (year_in_basename (year t)) paths)) |}).
Proof.
  rewrite (metakernel_new_instance env d t start_time).
  unfold paths, directory_paths. by rewrite listing.
Qed.

Lemma metakernel_some_match (n : string) :
  n ∈ names -> str_in (str_int (year t)) n = true ->
  exists m,
    (metakernel env d new_instance).1 = Ok (Some (prefix ++ m)) /\
    m ∈ names /\
    str_in (str_int (year t)) m = true /\
    forall n', n' ∈ names -> str_in (str_int (year t)) n' = true ->
               String.leb n' m = true.
Proof.
  intros Hn Hmatch. rewrite metakernel_listing. cbn [fst].
  destruct (last (List.filter _ paths)) as [p|] eqn:Hlast.
  - apply last_filter_StronglySorted in Hlast as (Hp & Hyear & Hmax);
      [|apply sorted_StronglySorted].
    apply elem_of_paths in Hp as (m & -> & Hm).
    exists m. split; [done|]. split; [done|].
    rewrite year_in_basename_path in Hyear by done. split; [done|].
    intros n' Hn' Hmatch'.
    rewrite <- (leb_append prefix). apply Hmax.
    + apply elem_of_paths. by exists n'.
    + by rewrite year_in_basename_path.
  - rewrite last_filter_None in Hlast.
    specialize (Hlast (prefix ++ n)).
    rewrite year_in_basename_path, Hmatch in Hlast by done.
    discriminate Hlast. apply elem_of_paths. by exists n.
Qed.

Lemma metakernel_no_match :
  (forall n, n ∈ names -> str_in (str_int (year t)) n = false) ->
  (metakernel env d new_instance).1 = Ok None.
Proof.
  intros Hnone. rewrite metakernel_listing. cbn [fst]. f_equal.
  apply last_filter_None. intros p (n & -> & Hn)%elem_of_paths.
  rewrite year_in_basename_path by done. by apply Hnone.
Qed.

End MetakernelSelection.


(** C2.  The first access to [metakernel], for a product that starts in
    the four-digit year [y] and a directory of file names: when some file
    name contains the numeral of [y], the result is the path of the
    greatest such file name in lexicographic order (the last one of the
    sorted listing); when none does, the result is [None]. *)
Theorem metakernel_selects_last_match (env : Env) (d : Base) (t : datetime)
    (prefix : string) (names : list string) :
  utc_start_time d = Ok t ->
  (1000 <= year t <= 9999)%Z ->
  glob env (path_join (config_lro env) "*.tm") =
    List.map (String.append prefix) names ->
  prefix = EmptyString \/ ends_with_slash prefix = true ->
  Forall (fun n => str_in "/" n = false) names ->
  let y := str_int (year t) in
  String.length y = 4 /\
  ((exists n, n ∈ names /\ str_in y n = true) ->
   exists m,
     (metakernel env d new_instance).1 = Ok (Some (prefix ++ m)) /\
     m ∈ names /\ str_in y m = true /\
     forall n, n ∈ names -> str_in y n = true -> String.leb n m = true) /\
  ((forall n, n ∈ names -> str_in y n = false) ->
   (metakernel env d new_instance).1 = Ok None).
Proof.
  intros Ht Hy Hglob Hprefix Hnames y. split; [|split].
  - by apply str_int_four_digits.
  - intros (n & Hn & Hmatch).
    by apply (metakernel_some_match env d t prefix names Ht Hglob Hprefix
                Hnames n).
  - by apply (metakernel_no_match env d t prefix names Ht Hglob Hprefix
                Hnames).
Qed.

Lemma metakernel_selects_last_match_witness :
  exists m,
    (metakernel Sample.env Sample.base new_instance).1 =
      Ok (Some ("/data/lro/mk/" ++ m)) /\
    m ∈ Sample.names /\ str_in "2009" m = true /\
    forall n, n ∈ Sample.names -> str_in "2009" n = true ->
              String.leb n m = true.
Proof.
  apply (metakernel_selects_last_match Sample.env Sample.base
           (Datetime 2009 7 30) "/data/lro/mk/" Sample.names).
  - reflexivity.
  - simpl. lia.
  - reflexivity.
  - right. reflexivity.
  - repeat constructor.
  - exists "lro_2009_v01.tm". split; [|reflexivity].
    apply list_elem_of_In. simpl. tauto.
Defined.

(** ** Unresolved lookups *)

Section Unresolved.

Lemma metakernel_unmatched_listing (env : Env) (d : Base) (t : datetime) :
  utc_start_time d = Ok t ->
  (forall mk, mk ∈ glob env (path_join (config_lro env) "*.tm") ->
              year_in_basename (year t) mk = false) ->
  metakernel env d new_instance = (Ok None, {| _metakernel := Some None |}).
Proof.
  intros Ht Hnone.
  rewrite (metakernel_new_instance env d t Ht).
  assert (last (List.filter (year_in_basename (year t))
                  (sorted (glob env (path_join (config_lro env) "*.tm"))))
          = None) as ->; [|done].
  apply last_filter_None. intros mk Hmk. apply Hnone.
  by rewrite sorted_Permutation in Hmk.
Qed.

(** With the start time at hand, no access to [metakernel] raises,
    whatever the instance has been through. *)
Lemma metakernel_returns (env : Env) (d : Base) (t : datetime)
    (self : Attrs) :
  utc_start_time d = Ok t ->
  exists v, (metakernel env d self).1 = Ok v.
Proof.
  intros Ht. destruct (_metakernel self) as [v|] eqn:Hself.
  - exists v. by rewrite (metakernel_cached env d self v).
  - assert (self = new_instance) as -> by (by destruct self as [[?|]]).
    rewrite (metakernel_new_instance env d t Ht). by eexists.
Qed.

End Unresolved.

(** C7.  Unresolved lookups do not raise.  Where the collaborators answer
    (the generic instrument id and the product start time are there), a
    frame discriminator other than ["LEFT"] and ["RIGHT"] makes
    [instrument_id] return [None], a directory listing in which no file
    name contains the start year makes the first access to [metakernel]
    return [None], and no access to [metakernel] raises. *)
Theorem unresolved_lookups_return_none (env : Env) (d : Base) (b : value)
    (t : datetime) :
  base_instrument_id d = Ok b ->
  utc_start_time d = Ok t ->
  (label_get d "FRAME_ID" <> Some (VStr "LEFT") ->
   label_get d "FRAME_ID" <> Some (VStr "RIGHT") ->
   instrument_id d = Ok None) /\
  ((forall mk, mk ∈ glob env (path_join (config_lro env) "*.tm") ->
               str_in (str_int (year t)) (basename mk) = false) ->
   (metakernel env d new_instance).1 = Ok None) /\
  (forall self, exists v, (metakernel env d self).1 = Ok v).
Proof.
  intros Hb Ht. split; [|split].
  - intros Hl Hr. unfold instrument_id. rewrite Hb. cbn.
    by rewrite !opt_eq_str_false, !andb_false_r.
  - intros Hnone.
    by rewrite (metakernel_unmatched_listing env d t Ht Hnone).
  - intros self. by apply (metakernel_returns env d t).
Qed.

Lemma unresolved_lookups_return_none_witness :
  instrument_id Sample.unknown_frame = Ok None /\
  (metakernel Sample.env Sample.unknown_frame new_instance).1 = Ok None.
Proof.
  destruct (unresolved_lookups_return_none Sample.env Sample.unknown_frame
              (VStr "LROC") (Datetime 2011 7 30) eq_refl eq_refl)
    as (Hid & Hmk & _).
  split.
  - apply Hid; discriminate.
  - apply Hmk. intros mk Hmk'.
    apply list_elem_of_In in Hmk'. simpl in Hmk'.
    destruct Hmk' as [<-|[<-|[<-|[]]]]; reflexivity.
Defined.

(** ** The cache of [metakernel] *)

(** C8.  When the first access to [metakernel] on an instance returns a
    value, every later access returns that value and leaves the instance
    as it is, whatever the directory and the product start time have
    become. *)
Theorem metakernel_first_access_is_cached (env : Env) (d : Base)
    (v : option string) (self : Attrs) (later : list (Env * Base)) :
  metakernel env d new_instance = (Ok v, self) ->
  metakernel_accesses later self = (List.map (fun _ => Ok v) later, self).
Proof.
  intros Hfirst. apply metakernel_accesses_cached.
  by apply (metakernel_Ok_cached env d new_instance).
Qed.

Lemma metakernel_first_access_is_cached_witness :
  (metakernel Sample.later_env Sample.later_base new_instance).1 =
    Ok (Some "/data/lro/mk/lro_2010_v07.tm") /\
  metakernel_accesses
    [(Sample.later_env, Sample.later_base); (Sample.env, Sample.base)]
    {| _metakernel := Some (Some "/data/lro/mk/lro_2009_v02.tm") |} =
  ([Ok (Some "/data/lro/mk/lro_2009_v02.tm");
    Ok (Some "/data/lro/mk/lro_2009_v02.tm")],
   {| _metakernel := Some (Some "/data/lro/mk/lro_2009_v02.tm") |}).
Proof.
  split; [reflexivity|].
  apply (metakernel_first_access_is_cached Sample.env Sample.base
           (Some "/data/lro/mk/lro_2009_v02.tm")
           {| _metakernel := Some (Some "/data/lro/mk/lro_2009_v02.tm") |}
           [(Sample.later_env, Sample.later_base); (Sample.env, Sample.base)]).
  reflexivity.
Defined.

(** A first access that raises has already set the attribute to [None]:
    the next access returns [None] and does not look at the directory. *)
Example metakernel_after_failed_access :
  let d := {| label := ∅;
              base_instrument_id := Ok (VStr "LROC");
              base_exposure_duration := Raise (KeyError "LINE_EXPOSURE_DURATION");
              instrument_host_id := Ok (VStr "LRO");
              utc_start_time := Raise (KeyError "START_TIME");
              spacecraft_id := Ok (-85)%Z;
              ikid := Ok (-85600)%Z |} in
  let first := metakernel Sample.env d new_instance in
  first.1 = Raise (KeyError "START_TIME") /\
  (metakernel Sample.env Sample.base first.2).1 = Ok None.
Proof. split; reflexivity. Qed.

(** ** The constant and delegating properties *)

(** C6.  [light_time_correction] is the string ["NONE"] for every driver
    instance, whatever its label and collaborators answer. *)
Theorem light_time_correction_is_none (d : Base) :
  light_time_correction d = Ok "NONE".
Proof. reflexivity. Qed.

(** C9.  [spacecraft_name] is the generic property [instrument_host_id],
    value or exception, as it is. *)
Theorem spacecraft_name_is_instrument_host_id (d : Base) :
  spacecraft_name d = instrument_host_id d.
Proof. reflexivity. Qed.

(** ** [usgscsm_distortion_model] *)

(** C5.  When the kernel pool holds the variable [INS<ikid>_OD_K], the
    distortion model is a dict whose only key is ["lrolrocnac"]; its value
    is a dict whose only key is ["coefficients"], mapped to the list of the
    first value of that variable, a list of one element. *)
Theorem usgscsm_distortion_model_shape (env : Env) (d : Base) (k : Z)
    (c : float) (more : list float) :
  ikid d = Ok k ->
  kernel_pool env !! ("INS" ++ str_int k ++ "_OD_K") = Some (c :: more) ->
  exists model inner,
    usgscsm_distortion_model env d = Ok model /\
    dom model = {[ "lrolrocnac" ]} /\
    model !! "lrolrocnac" = Some inner /\
    dom inner = {[ "coefficients" ]} /\
    inner !! "coefficients" = Some [c] /\
    odtk env d = Ok [c].
Proof.
  intros Hk Hpool.
  assert (odtk env d = Ok [c]) as Hodtk.
  { unfold odtk, gdpool. rewrite Hk. cbn. by rewrite Hpool. }
  exists {[ "lrolrocnac" := {[ "coefficients" := [c] ]} ]},
         {[ "coefficients" := [c] ]}.
  split; [|split; [|split; [|split; [|split]]]].
  - unfold usgscsm_distortion_model. by rewrite Hodtk.
  - apply dom_singleton_L.
  - apply lookup_singleton_eq.
  - apply dom_singleton_L.
  - apply lookup_singleton_eq.
  - done.
Qed.

Lemma usgscsm_distortion_model_shape_witness :
  exists model inner,
    usgscsm_distortion_model Sample.env Sample.base = Ok model /\
    dom model = {[ "lrolrocnac" ]} /\
    model !! "lrolrocnac" = Some inner /\
    dom inner = {[ "coefficients" ]} /\
    inner !! "coefficients" = Some [0.0000181%float] /\
    odtk Sample.env Sample.base = Ok [0.0000181%float].
Proof.
  apply (usgscsm_distortion_model_shape Sample.env Sample.base (-85600)%Z
           0.0000181%float []); reflexivity.
Defined.

(** ** [exposure_duration] and [ephemeris_start_time] *)

Local Open Scope float_scope.

(** C4.  For the base exposure duration [b], [exposure_duration] is the
    binary64 value of [b * (1 + 0.0045) + 0.0].  The factor [1 + 0.0045]
    is the float [1.0045], and the result is the float [b * 1.0045]
    itself, unless that product is the negative zero, for which the
    result is the positive zero. *)
Theorem exposure_duration_scaled (d : Base) (b : float) :
  base_exposure_duration d = Ok b ->
  exposure_duration d = Ok (b * (1 + 0.0045) + 0.0) /\
  1 + 0.0045 = 1.0045 /\
  (exposure_duration d = Ok (b * 1.0045) \/
   (b * 1.0045 = -0.0 /\ exposure_duration d = Ok 0.0)).
Proof.
  intros Hb.
  assert (exposure_duration d = Ok (b * 1.0045 + 0.0)) as He.
  { unfold exposure_duration. by rewrite Hb. }
  split; [done|]. split; [apply one_plus_multipli_line_error|].
  rewrite He.
  destruct (float_add_zero_r (b * 1.0045)) as [->|[Hz ->]]; [by left|].
  by right.
Qed.

Lemma exposure_duration_scaled_witness :
  exposure_duration Sample.base = Ok (0.0003375 * (1 + 0.0045) + 0.0) /\
  1 + 0.0045 = 1.0045 /\
  (exposure_duration Sample.base = Ok (0.0003375 * 1.0045) \/
   (0.0003375 * 1.0045 = -0.0 /\ exposure_duration Sample.base = Ok 0.0)).
Proof.
  apply (exposure_duration_scaled Sample.base 0.0003375). reflexivity.
Defined.

(** C3.  When the collaborators answer, [ephemeris_start_time] is the
    ephemeris time of the spacecraft clock preroll count
    ([scs2e] of [LRO:SPACECRAFT_CLOCK_PREROLL_COUNT]), plus [0.0], plus
    [1024.0] times the exposure duration of the driver. *)
Theorem ephemeris_start_time_formula (env : Env) (d : Base) (sc : Z)
    (count : value) (start_time e : float) :
  spacecraft_id d = Ok sc ->
  label d !! "LRO:SPACECRAFT_CLOCK_PREROLL_COUNT" = Some count ->
  scs2e env sc count = Ok start_time ->
  exposure_duration d = Ok e ->
  ephemeris_start_time env d = Ok (start_time + 0.0 + 1024.0 * e).
Proof.
  intros Hsc Hcount Hscs He.
  unfold ephemeris_start_time, label_item.
  rewrite Hsc, Hcount. cbn. rewrite Hscs. cbn. by rewrite He.
Qed.

Lemma ephemeris_start_time_formula_witness :
  ephemeris_start_time Sample.env Sample.base =
  Ok (302228504.36824864 + 0.0 + 1024.0 * (0.0003375 * 1.0045)).
Proof.
  apply (ephemeris_start_time_formula Sample.env Sample.base (-85)%Z
           (VStr "1/270649237:07208")); reflexivity.
Defined.

(** * Further properties of the driver *)

Local Close Scope float_scope.

(** ** [instrument_id]: when it answers what *)

(** X1.  [instrument_id] returns an identifier only for the generic
    instrument id ["LROC"] with the frame ["LEFT"] (then the identifier is
    ["LRO_LROCNACL"]) or ["RIGHT"] (then it is ["LRO_LROCNACR"]), and in
    those cases it does. *)
Theorem instrument_id_Some_iff (d : Base) (s : string) :
  instrument_id d = Ok (Some s) <->
  base_instrument_id d = Ok (VStr "LROC") /\
  ((label_get d "FRAME_ID" = Some (VStr "LEFT") /\ s = "LRO_LROCNACL") \/
   (label_get d "FRAME_ID" = Some (VStr "RIGHT") /\ s = "LRO_LROCNACR")).
Proof.
  unfold instrument_id.
  destruct (base_instrument_id d) as [b|e]; cbn; [|split; [done|by intros [? _]]].
  destruct (eq_str b "LROC") eqn:Hb; cbn.
  - apply eq_str_true in Hb as ->.
    destruct (opt_eq_str (label_get d "FRAME_ID") "LEFT") eqn:Hl.
    + apply opt_eq_str_true in Hl. rewrite Hl. split.
      * intros [= <-]. split; [done|]. by left.
      * intros [_ [[_ ->]|[[=] _]]]. done.
    + destruct (opt_eq_str (label_get d "FRAME_ID") "RIGHT") eqn:Hr.
      * apply opt_eq_str_true in Hr. rewrite Hr. split.
        -- intros [= <-]. split; [done|]. by right.
        -- intros [_ [[[=] _]|[_ ->]]]. done.
      * split; [done|]. intros [_ [[H _]|[H _]]].
        -- apply opt_eq_str_true in H. congruence.
        -- apply opt_eq_str_true in H. congruence.
  - split; [done|]. intros [[= ->] _]. done.
Qed.

(** X2.  [instrument_id] raises exactly when the generic instrument id
    does, and then raises the same exception: the lookup of the frame and
    the comparisons never raise. *)
Theorem instrument_id_Raise_iff (d : Base) (e : exn) :
  instrument_id d = Raise e <-> base_instrument_id d = Raise e.
Proof.
  unfold instrument_id.
  destruct (base_instrument_id d) as [b|e']; cbn.
  - split; [|done]. by repeat case_match.
  - split; intros [= ->]; done.
Qed.

(** ** [odtk] and [usgscsm_distortion_model]: the kernel variable *)

Section KernelVariable.

(** [str] on integers is one to one. *)
Lemma str_int_inj (a b : Z) : str_int a = str_int b -> a = b.
Proof.
  unfold str_int. intros H.
  assert (forall z, NilZero.int_of_string (NilZero.string_of_int (Z.to_int z))
                    = Some (Z.to_int z)) as Hparse.
  { intros z. apply NilZero.isi; destruct z; simpl; try discriminate.
    - intros [= Hp]. by apply DecimalPos.Unsigned.to_uint_nonnil in Hp.
    - intros [= Hp]. by apply DecimalPos.Unsigned.to_uint_nonnil in Hp. }
  apply DecimalZ.to_int_inj.
  apply (f_equal NilZero.int_of_string) in H.
  rewrite !Hparse in H. congruence.
Qed.

Lemma length_append (a b : string) :
  String.length (a ++ b) = String.length a + String.length b.
Proof.
  induction a as [|c a IH]; [done|].
  rewrite append_cons. simpl. by rewrite IH.
Qed.

Lemma append_inj_l (a a' b : string) : a ++ b = a' ++ b -> a = a'.
Proof.
  intros H.
  assert (String.length a = String.length a') as Hlen.
  { apply (f_equal String.length) in H. rewrite !length_append in H. lia. }
  revert a' H Hlen.
  induction a as [|c a IH]; intros [|c' a'] H Hlen; try done.
  rewrite !append_cons in H. injection H as -> H.
  f_equal. apply IH; [done|]. simpl in Hlen. lia.
Qed.

End KernelVariable.

(** X3.  Whatever the kernel pool holds, [odtk] returns at most one
    coefficient: when it returns, the instrument code is there, the pool
    holds the variable [INS<ikid>_OD_K], and the result is the list of the
    first value of that variable (the empty list for a variable without
    values). *)
Theorem odtk_at_most_one (env : Env) (d : Base) (l : list float) :
  odtk env d = Ok l ->
  length l <= 1 /\
  exists k vals,
    ikid d = Ok k /\
    kernel_pool env !! ("INS" ++ str_int k ++ "_OD_K") = Some vals /\
    l = take 1 vals.
Proof.
  unfold odtk, gdpool.
  destruct (ikid d) as [k|e]; cbn; [|done].
  destruct (kernel_pool env !! _) as [vals|] eqn:Hpool; [|done].
  intros [= <-]. split.
  - rewrite length_take. lia.
  - by exists k, vals.
Qed.

Lemma odtk_at_most_one_witness :
  length [0.0000181%float] <= 1 /\
  exists k vals,
    ikid Sample.base = Ok k /\
    kernel_pool Sample.env !! ("INS" ++ str_int k ++ "_OD_K") = Some vals /\
    [0.0000181%float] = take 1 vals.
Proof.
  apply (odtk_at_most_one Sample.env Sample.base). reflexivity.
Defined.

(** X4.  [usgscsm_distortion_model] returns a model exactly when the
    instrument code is there and the kernel pool holds the variable
    [INS<ikid>_OD_K]; otherwise it raises. *)
Theorem usgscsm_distortion_model_returns_iff (env : Env) (d : Base) :
  (exists model, usgscsm_distortion_model env d = Ok model) <->
  exists k, ikid d = Ok k /\
            is_Some (kernel_pool env !! ("INS" ++ str_int k ++ "_OD_K")).
Proof.
  unfold usgscsm_distortion_model, odtk, gdpool.
  destruct (ikid d) as [k|e]; cbn.
  - destruct (kernel_pool env !! _) as [vals|] eqn:Hpool; cbn.
    + split; [|by eexists]. intros _. exists k. split; [done|].
      rewrite Hpool. by eexists.
    + split; [by intros [? ?]|]. intros (k' & [= <-] & Hsome).
      rewrite Hpool in Hsome. by destruct Hsome.
  - split; [by intros [? ?]|]. by intros (k' & ? & _).
Qed.

(** X5.  Two instrument codes read two kernel variables: the name
    [INS<ikid>_OD_K] determines the code, so the left and the right camera
    never share a coefficient by accident. *)
Theorem odtk_variable_inj (k k' : Z) :
  k <> k' ->
  "INS" ++ str_int k ++ "_OD_K" <> "INS" ++ str_int k' ++ "_OD_K".
Proof.
  intros Hne H. apply Hne.
  rewrite !append_cons, !append_nil_l in H.
  injection H as H. by apply str_int_inj, (append_inj_l _ _ "_OD_K").
Qed.

Lemma odtk_variable_inj_witness :
  "INS" ++ str_int (-85600) ++ "_OD_K" <> "INS" ++ str_int (-85610) ++ "_OD_K".
Proof.
  apply (odtk_variable_inj (-85600)%Z (-85610)%Z). lia.
Defined.

(** ** [ephemeris_start_time] and [exposure_duration]: errors and zeros *)

(** X6.  A label without [LRO:SPACECRAFT_CLOCK_PREROLL_COUNT] makes
    [ephemeris_start_time] raise the [KeyError] of that key, in every
    environment: the clock conversion and the exposure duration are not
    reached. *)
Theorem ephemeris_start_time_missing_count (env : Env) (d : Base) (sc : Z) :
  spacecraft_id d = Ok sc ->
  label d !! "LRO:SPACECRAFT_CLOCK_PREROLL_COUNT" = None ->
  ephemeris_start_time env d =
    Raise (KeyError "LRO:SPACECRAFT_CLOCK_PREROLL_COUNT").
Proof.
  intros Hsc Hcount. unfold ephemeris_start_time, label_item.
  rewrite Hsc, Hcount. done.
Qed.

Lemma ephemeris_start_time_missing_count_witness :
  ephemeris_start_time Sample.env Edge.bare_label =
    Raise (KeyError "LRO:SPACECRAFT_CLOCK_PREROLL_COUNT").
Proof.
  apply (ephemeris_start_time_missing_count Sample.env Edge.bare_label
           (-85)%Z); reflexivity.
Defined.


(** X8.  The constant time offset [0.0] changes nothing: for a start time
    other than the negative zero, [ephemeris_start_time] is the start time
    plus [1024.0] times the exposure duration. *)
Theorem ephemeris_start_time_offset_free (env : Env) (d : Base) (sc : Z)
    (count : value) (start_time e : float) :
  spacecraft_id d = Ok sc ->
  label d !! "LRO:SPACECRAFT_CLOCK_PREROLL_COUNT" = Some count ->
  scs2e env sc count = Ok start_time ->
  exposure_duration d = Ok e ->
  start_time <> (-0.0)%float ->
  ephemeris_start_time env d = Ok (start_time + 1024.0 * e)%float.
Proof.
  intros Hsc Hcount Hscs He Hnz.
  unfold ephemeris_start_time, label_item.
  rewrite Hsc, Hcount. cbn. rewrite Hscs. cbn. rewrite He. cbn.
  unfold constant_time_offset, additional_preroll.
  by destruct (float_add_zero_r start_time) as [->|[? _]].
Qed.

Lemma ephemeris_start_time_offset_free_witness :
  ephemeris_start_time Sample.env Sample.base =
  Ok (302228504.36824864 + 1024.0 * (0.0003375 * 1.0045))%float.
Proof.
  apply (ephemeris_start_time_offset_free Sample.env Sample.base (-85)%Z
           (VStr "1/270649237:07208")); try reflexivity.
  intros H. apply (f_equal Prim2SF) in H. vm_compute in H. discriminate H.
Defined.

(** X9.  [exposure_duration] never returns the negative zero: the
    additive line error [0.0] turns a negative zero product into the
    positive zero. *)
Theorem exposure_duration_not_negative_zero (d : Base) :
  exposure_duration d <> Ok (-0.0)%float.
Proof.
  unfold exposure_duration, additive_line_error.
  destruct (base_exposure_duration d) as [b|e]; cbn; [|done].
  intros [= H]. apply (f_equal Prim2SF) in H.
  rewrite add_spec in H.
  destruct (Prim2SF (b * _)) as [[|]| | |? ? ?];
    vm_compute in H; discriminate H.
Qed.

(** ** [metakernel]: listings, failures and the attribute *)

Section MetakernelEdges.

Lemma sorted_nil_inv (l : list string) : sorted l = [] -> l = [].
Proof.
  intros H. apply Permutation_nil_r. by rewrite <- H, sorted_Permutation.
Qed.

Lemma sorted_Permutation_eq (l l' : list string) :
  l ≡ₚ l' -> sorted l = sorted l'.
Proof.
  intros Hp. apply sorted_unique; [|apply sorted_StronglySorted].
  by rewrite sorted_Permutation.
Qed.



End MetakernelEdges.

(** X10.  In a directory without metakernels the first access returns
    [None] whatever the product start time is, a missing one included:
    the start time is not read. *)
Theorem metakernel_empty_listing (env : Env) (d : Base) :
  glob env (path_join (config_lro env) "*.tm") = [] ->
  metakernel env d new_instance = (Ok None, {| _metakernel := Some None |}).
Proof.
  intros Hglob. unfold metakernel. by rewrite Hglob.
Qed.

Lemma metakernel_empty_listing_witness :
  utc_start_time Edge.bare_label = Raise (KeyError "START_TIME") /\
  metakernel Edge.empty_directory Edge.bare_label new_instance =
    (Ok None, {| _metakernel := Some None |}).
Proof.
  split; [reflexivity|].
  apply (metakernel_empty_listing Edge.empty_directory Edge.bare_label).
  reflexivity.
Defined.

(** X11.  When the directory has a metakernel and the product start time
    raises, the first access raises that exception, but the attribute is
    already set to [None]: every later access returns [None], in any
    environment, and never looks for a metakernel again. *)
Theorem metakernel_failed_access_sticks (env : Env) (d : Base) (e : exn)
    (later : list (Env * Base)) :
  utc_start_time d = Raise e ->
  glob env (path_join (config_lro env) "*.tm") <> [] ->
  metakernel env d new_instance = (Raise e, {| _metakernel := Some None |}) /\
  metakernel_accesses later {| _metakernel := Some None |} =
    (List.map (fun _ => Ok None) later, {| _metakernel := Some None |}).
Proof.
  intros Ht Hglob. split.
  - unfold metakernel.
    destruct (sorted (glob env _)) as [|mk mks] eqn:Hsorted.
    + by apply sorted_nil_inv in Hsorted.
    + cbn. by rewrite Ht.
  - by apply metakernel_accesses_cached.
Qed.

Lemma metakernel_failed_access_sticks_witness :
  metakernel Sample.env Edge.bare_label new_instance =
    (Raise (KeyError "START_TIME"), {| _metakernel := Some None |}) /\
  metakernel_accesses [(Sample.env, Sample.base)]
    {| _metakernel := Some None |} =
    ([Ok None], {| _metakernel := Some None |}).
Proof.
  apply (metakernel_failed_access_sticks Sample.env Edge.bare_label
           (KeyError "START_TIME") [(Sample.env, Sample.base)]).
  - reflexivity.
  - discriminate.
Defined.

(** X12.  Whatever paths [glob] lists, a path the first access returns is
    one of them, its base name contains the numeral of the start year, and
    no listed path with such a base name comes after it in the order of
    strings. *)
Theorem metakernel_result_is_listed (env : Env) (d : Base) (t : datetime)
    (mk : string) :
  utc_start_time d = Ok t ->
  (metakernel env d new_instance).1 = Ok (Some mk) ->
  mk ∈ glob env (path_join (config_lro env) "*.tm") /\
  (exists u v, basename mk = u ++ str_int (year t) ++ v) /\
  forall p, p ∈ glob env (path_join (config_lro env) "*.tm") ->
            str_in (str_int (year t)) (basename p) = true ->
            String.leb p mk = true.
Proof.
  intros Ht. rewrite (metakernel_new_instance env d t Ht). cbn [fst].
  intros [= Hlast].
  apply last_filter_StronglySorted in Hlast as (Hin & Hyear & Hmax);
    [|apply sorted_StronglySorted].
  rewrite sorted_Permutation in Hin. split; [done|]. split.
  - by apply str_in_iff.
  - intros p Hp Hmatch. apply Hmax; [|done].
    by rewrite sorted_Permutation.
Qed.

Lemma metakernel_result_is_listed_witness :
  "/data/lro/mk/lro_2009_v02.tm"
    ∈ glob Sample.env (path_join (config_lro Sample.env) "*.tm") /\
  (exists u v, basename "/data/lro/mk/lro_2009_v02.tm" = u ++ "2009" ++ v) /\
  forall p, p ∈ glob Sample.env (path_join (config_lro Sample.env) "*.tm") ->
            str_in "2009" (basename p) = true ->
            String.leb p "/data/lro/mk/lro_2009_v02.tm" = true.
Proof.
  apply (metakernel_result_is_listed Sample.env Sample.base
           (Datetime 2009 7 30)); reflexivity.
Defined.

(** X13.  The order in which [glob] lists the directory does not matter:
    two environments whose listings are permutations of one another give
    the same outcome and the same attributes, for every product and every
    instance. *)
Theorem metakernel_listing_order (env env' : Env) (d : Base) (self : Attrs) :
  glob env (path_join (config_lro env) "*.tm")
    ≡ₚ glob env' (path_join (config_lro env') "*.tm") ->
  metakernel env d self = metakernel env' d self.
Proof.
  intros Hp. unfold metakernel. by rewrite (sorted_Permutation_eq _ _ Hp).
Qed.

Lemma metakernel_listing_order_witness :
  metakernel Sample.env Sample.base new_instance =
  metakernel Edge.relisted Sample.base new_instance.
Proof.
  apply (metakernel_listing_order Sample.env Edge.relisted).
  apply perm_swap.
Defined.

